(** * The vips binding shim (vips.h): calls into the wrapped image library

    Every function of [vips.h] is a fixed-arity wrapper around one variadic
    call of the wrapped image library.  A shim function is embedded as a
    program over library calls: a tree whose nodes are the calls the C
    body performs, in order, with the argument list as the source writes
    it, and whose leaves are the value the function returns.  The library
    itself is the environment: programs are run against an arbitrary
    library, and the theorems hold for every one of them. *)

From Stdlib Require Import ZArith List String Bool Lia.
From Stdlib Require Import Floats.PrimFloat Floats.FloatOps Floats.SpecFloat.
From ExtLib Require Import Structures.Monad.
Import ListNotations.
Import MonadNotation.

Local Open Scope Z_scope.
Local Open Scope monad_scope.

Set Implicit Arguments.

(** ** C values *)

(** Addresses.  Image handles, interpolators, buffers, output slots and
    areas are all opaque to the shim: it only passes them on. *)
Definition ptr : Type := Z.

(** A value passed to, or returned by, a C function.  [double] is IEEE
    binary64, strings are their contents.  The shim computes with none of
    them, so an [int] or a [size_t] never wraps around here. *)
Inductive cval : Type :=
| VInt (z : Z)
| VSize (n : Z)
| VDouble (d : float)
| VPtr (p : ptr)
| VStr (s : string).

(** The null pointer that ends every option list. *)
Definition NULL : cval := VPtr 0.

(** The macros [FALSE] and [TRUE] come with the wrapped library's headers,
    from glib's [gmacros.h], which is not part of the repository:
    [#define FALSE (0)] and [#define TRUE (!FALSE)]. *)
Definition FALSE : Z := 0.
Definition TRUE : Z := if FALSE =? 0 then 1 else 0.

(** The enumeration [VipsAccess] of the wrapped library's headers, which
    are not part of the repository, in declaration order; C numbers the
    constants from 0.  The shim names [VIPS_ACCESS_SEQUENTIAL] only, and
    no property below depends on its number. *)
Inductive VipsAccess : Type :=
| VIPS_ACCESS_RANDOM
| VIPS_ACCESS_SEQUENTIAL
| VIPS_ACCESS_SEQUENTIAL_UNBUFFERED.

Definition access_code (a : VipsAccess) : Z :=
  match a with
  | VIPS_ACCESS_RANDOM => 0
  | VIPS_ACCESS_SEQUENTIAL => 1
  | VIPS_ACCESS_SEQUENTIAL_UNBUFFERED => 2
  end.

(** ** The wrapped library's entry points *)

(** The library functions [vips.h] calls. *)
Inductive lib_fn : Type :=
| vips_init
| vips_gaussblur
| vips_affine
| vips_jpegload_buffer
| vips_magickload
| vips_pngload_buffer
| vips_shrink
| vips_copy
| vips_array_double_newv
| vips_flatten
| vips_area_unref
| vips_embed
| vips_colourspace
| vips_extract_area
| vips_jpegsave_buffer.

(** What a library function returns: [vips_array_double_newv] a pointer to
    the new area, [vips_area_unref] nothing, every other one an [int]
    status code. *)
Definition result (f : lib_fn) : Type :=
  match f with
  | vips_array_double_newv => ptr
  | vips_area_unref => unit
  | _ => Z
  end.

(** Parameter types of the library's prototypes. *)
Inductive ctype : Type := TInt | TSize | TDouble | TPtr | TStr.

(** The named parameters of each prototype.  The prototypes are declared
    in [<vips/vips.h>], the wrapped library's header, which is not part of
    the repository; they are taken from the library's documentation.
    Whatever follows the named parameters in a call is variadic.
    [VipsArrayDouble *vips_array_double_newv (int n, ...)] takes the
    element count first.  [vips_area_unref] and [vips_init] are not
    variadic. *)
Definition fixed_params (f : lib_fn) : list ctype :=
  match f with
  | vips_init => [TStr]
  | vips_gaussblur => [TPtr; TPtr; TDouble]
  | vips_affine => [TPtr; TPtr; TDouble; TDouble; TDouble; TDouble]
  | vips_jpegload_buffer => [TPtr; TSize; TPtr]
  | vips_magickload => [TStr; TPtr]
  | vips_pngload_buffer => [TPtr; TSize; TPtr]
  | vips_shrink => [TPtr; TPtr; TDouble; TDouble]
  | vips_copy => [TPtr; TPtr]
  | vips_array_double_newv => [TInt]
  | vips_flatten => [TPtr; TPtr]
  | vips_area_unref => [TPtr]
  | vips_embed => [TPtr; TPtr; TInt; TInt; TInt; TInt]
  | vips_colourspace => [TPtr; TPtr; TInt]
  | vips_extract_area => [TPtr; TPtr; TInt; TInt; TInt; TInt]
  | vips_jpegsave_buffer => [TPtr; TPtr; TPtr]
  end.

(** ** C's conversion of an argument to the type of a named parameter *)

Definition INT_MIN : Z := - 2 ^ 31.
Definition INT_MAX : Z := 2 ^ 31 - 1.

(** [double] to [int]: the fractional part is discarded; the behaviour is
    undefined when the value is not finite or the integral part is not
    representable. *)
Definition double_to_int (d : float) : option Z :=
  match Prim2SF d with
  | S754_zero _ => Some 0
  | S754_finite s m e =>
      let mag := if 0 <=? e then Z.shiftl (Zpos m) e else Z.shiftr (Zpos m) (- e) in
      let z := if s then - mag else mag in
      if ((INT_MIN <=? z) && (z <=? INT_MAX))%bool then Some z else None
  | S754_infinity _ => None
  | S754_nan => None
  end.

(** [int] to [double]: exact, an [int] has at most 31 significant bits. *)
Definition int_to_double (z : Z) : float :=
  let m := SF2Prim (binary_normalize prec emax (Z.abs z) 0 false) in
  if z <? 0 then PrimFloat.opp m else m.

Definition convert (t : ctype) (v : cval) : option cval :=
  match t, v with
  | TInt, VInt z => Some (VInt z)
  | TInt, VDouble d => option_map VInt (double_to_int d)
  | TSize, VSize n => Some (VSize n)
  | TDouble, VDouble d => Some (VDouble d)
  | TDouble, VInt z => Some (VDouble (int_to_double z))
  | TPtr, VPtr p => Some (VPtr p)
  | TStr, VStr s => Some (VStr s)
  | _, _ => None
  end.

(** The argument list as the callee receives it: the leading arguments
    converted to the named parameters' types, the variadic ones as they
    are (the default promotions change none of [int], [double] and
    pointers).  [None] for a call C does not define. *)
Fixpoint convert_args (ts : list ctype) (args : list cval) : option (list cval) :=
  match ts, args with
  | [], _ => Some args
  | _ :: _, [] => None
  | t :: ts', v :: args' =>
      match convert t v, convert_args ts' args' with
      | Some v', Some rest => Some (v' :: rest)
      | _, _ => None
      end
  end.

Definition pass_args (f : lib_fn) (args : list cval) : option (list cval) :=
  convert_args (fixed_params f) args.

(** ** Programs over library calls *)

Inductive prog (A : Type) : Type :=
| Ret (a : A)
| Call (f : lib_fn) (args : list cval) (k : result f -> prog A).

Arguments Ret {A} a.
Arguments Call {A} f args k.

Fixpoint bind_prog {A B : Type} (p : prog A) (g : A -> prog B) : prog B :=
  match p with
  | Ret a => g a
  | Call f args k => Call f args (fun r => bind_prog (k r) g)
  end.

#[global] Instance Monad_prog : Monad prog :=
  {| ret := @Ret; bind := @bind_prog |}.

(** One library call, returning what the library returns. *)
Definition call (f : lib_fn) (args : list cval) : prog (result f) :=
  Call f args (fun r => Ret r).

(** ** The shim: vips.h *)

Definition vips_initialize : prog Z :=
  call vips_init [VStr "govips"].

Definition vips_gaussian_blur (in_ out : ptr) (sigma : float) : prog Z :=
  call vips_gaussblur [VPtr in_; VPtr out; VDouble sigma; NULL].

Definition vips_affine_interpolator (in_ out : ptr) (a b c d : float)
    (interpolator : ptr) : prog Z :=
  call vips_affine
    [VPtr in_; VPtr out; VDouble a; VDouble b; VDouble c; VDouble d;
     VStr "interpolate"; VPtr interpolator; NULL].

Definition vips_jpegload_buffer_seq (buf : ptr) (len : Z) (out : ptr) : prog Z :=
  call vips_jpegload_buffer
    [VPtr buf; VSize len; VPtr out;
     VStr "access"; VInt (access_code VIPS_ACCESS_SEQUENTIAL); NULL].

Definition vips_magickload_ (filename : string) (out : ptr) : prog Z :=
  call vips_magickload [VStr filename; VPtr out; NULL].

Definition vips_jpegload_buffer_shrink (buf : ptr) (len : Z) (out : ptr)
    (shrink : Z) : prog Z :=
  call vips_jpegload_buffer
    [VPtr buf; VSize len; VPtr out; VStr "shrink"; VInt shrink; NULL].

Definition vips_pngload_buffer_seq (buf : ptr) (len : Z) (out : ptr) : prog Z :=
  call vips_pngload_buffer
    [VPtr buf; VSize len; VPtr out;
     VStr "access"; VInt (access_code VIPS_ACCESS_SEQUENTIAL); NULL].

Definition vips_shrink_0 (in_ out : ptr) (xshrink yshrink : float) : prog Z :=
  call vips_shrink [VPtr in_; VPtr out; VDouble xshrink; VDouble yshrink; NULL].

Definition vips_copy_0 (in_ out : ptr) : prog Z :=
  call vips_copy [VPtr in_; VPtr out; NULL].

Definition vips_flatten_0 (in_ out : ptr) : prog Z :=
  white <- call vips_array_double_newv [VDouble 1.0; VDouble 255.0] ;;
  flatten_value <-
    call vips_flatten [VPtr in_; VPtr out; VStr "background"; VPtr white; NULL] ;;
  call vips_area_unref [VPtr white] ;;
  ret flatten_value.

Definition vips_embed_extend (in_ out : ptr) (left top width height extend : Z)
    : prog Z :=
  call vips_embed
    [VPtr in_; VPtr out; VInt left; VInt top; VInt width; VInt height;
     VStr "extend"; VInt extend; NULL].

Definition vips_colourspace_0 (in_ out : ptr) (space : Z) : prog Z :=
  call vips_colourspace [VPtr in_; VPtr out; VInt space; NULL].

Definition vips_extract_area_0 (in_ out : ptr) (left top width height : Z)
    : prog Z :=
  call vips_extract_area
    [VPtr in_; VPtr out; VInt left; VInt top; VInt width; VInt height; NULL].

Definition vips_jpegsave_custom (in_ buf len : ptr) (strip quality interlace : Z)
    : prog Z :=
  call vips_jpegsave_buffer
    [VPtr in_; VPtr buf; VPtr len;
     VStr "strip"; VInt strip; VStr "Q"; VInt quality;
     VStr "optimize_coding"; VInt TRUE; VStr "interlace"; VInt interlace; NULL].

(** ** Running a program against a library *)

(** One performed call: the function, the arguments it received and what
    it returned. *)
Record event : Type := Event {
  ev_fn : lib_fn;
  ev_args : list cval;
  ev_res : result ev_fn
}.

(** The status code an event carries, when its function returns one. *)
Definition ev_status (e : event) : option Z :=
  match e with
  | Event vips_array_double_newv _ _ => None
  | Event vips_area_unref _ _ => None
  | Event vips_init _ st
  | Event vips_gaussblur _ st
  | Event vips_affine _ st
  | Event vips_jpegload_buffer _ st
  | Event vips_magickload _ st
  | Event vips_pngload_buffer _ st
  | Event vips_shrink _ st
  | Event vips_copy _ st
  | Event vips_flatten _ st
  | Event vips_embed _ st
  | Event vips_colourspace _ st
  | Event vips_extract_area _ st
  | Event vips_jpegsave_buffer _ st => Some st
  end.

(** The status codes the library returned during a run, in order, each
    with the function that returned it. *)
Fixpoint statuses (tr : list event) : list (lib_fn * Z) :=
  match tr with
  | [] => []
  | e :: tr' =>
      match ev_status e with
      | Some st => (ev_fn e, st) :: statuses tr'
      | None => statuses tr'
      end
  end.

(** The variadic arguments of a call. *)
Definition variadic (f : lib_fn) (args : list cval) : list cval :=
  skipn (List.length (fixed_params f)) args.

Definition required (f : lib_fn) (args : list cval) : list cval :=
  firstn (List.length (fixed_params f)) args.

(** The library reads its optional arguments as name, value pairs up to
    the first null pointer. *)
Fixpoint options (l : list cval) : option (list (string * cval)) :=
  match l with
  | VPtr 0 :: _ => Some []
  | VStr name :: v :: rest =>
      match options rest with
      | Some o => Some ((name, v) :: o)
      | None => None
      end
  | _ => None
  end.

Definition ev_options (e : event) : option (list (string * cval)) :=
  options (variadic (ev_fn e) (ev_args e)).

Definition ev_required (e : event) : list cval :=
  required (ev_fn e) (ev_args e).

Fixpoint lookup_option (name : string) (o : list (string * cval)) : option cval :=
  match o with
  | [] => None
  | (n, v) :: o' => if String.eqb name n then Some v else lookup_option name o'
  end.

Section Run.

(** The state of everything outside the shim: the library's objects and
    the caller's memory. *)
Variable W : Type.

(** A library: what each entry point returns and how it changes the
    world, for the arguments it receives. *)
Definition library : Type := forall f : lib_fn, list cval -> W -> result f * W.

Variable lib : library.

(** [exec p w] runs [p] from [w]: the value [p] returns, the final world
    and the calls performed.  [None] when a call is undefined in C. *)
Fixpoint exec {A : Type} (p : prog A) (w : W) : option (A * W * list event) :=
  match p with
  | Ret a => Some (a, w, [])
  | Call f args k =>
      match pass_args f args with
      | None => None
      | Some args' =>
          let rw := lib f args' w in
          match exec (k (fst rw)) (snd rw) with
          | Some (a, w', tr) => Some (a, w', Event f args' (fst rw) :: tr)
          | None => None
          end
      end
  end.

(** The library call alone, on the arguments as written. *)
Definition lib_call (f : lib_fn) (args : list cval) (w : W)
    : option (result f * W) :=
  match pass_args f args with
  | Some args' => Some (lib f args' w)
  | None => None
  end.

End Run.

Arguments exec {W} lib {A} p w.
Arguments lib_call {W} lib f args w.

(** ** Areas *)

(** The elements [vips_array_double_newv (n, ...)] copies into the new
    array, as the library documents the function (its code is not part of
    the repository): the first [n] variadic arguments, read as [double]s.
    Reading more than were passed, or one that is not a [double], is
    undefined. *)
Fixpoint take_doubles (n : nat) (l : list cval) : option (list float) :=
  match n, l with
  | O, _ => Some []
  | S n', VDouble d :: l' =>
      match take_doubles n' l' with
      | Some ds => Some (d :: ds)
      | None => None
      end
  | S _, _ => None
  end.

Definition array_double_elems (args : list cval) : option (list float) :=
  match args with
  | VInt n :: rest => if 0 <=? n then take_doubles (Z.to_nat n) rest else None
  | _ => None
  end.

(** The elements of the array at [p], from the call that allocated it. *)
Fixpoint area_elems (tr : list event) (p : ptr) : option (list float) :=
  match tr with
  | [] => None
  | Event vips_array_double_newv args q :: tr' =>
      if p =? q then array_double_elems args else area_elems tr' p
  | _ :: tr' => area_elems tr' p
  end.

(** The array a run hands to [vips_flatten] as its "background". *)
Fixpoint flatten_background (tr_all tr : list event) : option (list float) :=
  match tr with
  | [] => None
  | e :: tr' =>
      match ev_fn e, ev_options e with
      | vips_flatten, Some o =>
          match lookup_option "background" o with
          | Some (VPtr p) => area_elems tr_all p
          | _ => None
          end
      | _, _ => flatten_background tr_all tr'
      end
  end.

(** References to the area at [p] the shim holds after a run: one for
    each allocation that returned [p], one less for each release. *)
Fixpoint area_refs (tr : list event) (p : ptr) : Z :=
  match tr with
  | [] => 0
  | Event vips_array_double_newv _ q :: tr' =>
      (if p =? q then 1 else 0) + area_refs tr' p
  | Event vips_area_unref args _ :: tr' =>
      (match args with
       | [VPtr q] => if p =? q then -1 else 0
       | _ => 0
       end) + area_refs tr' p
  | _ :: tr' => area_refs tr' p
  end.

(** ** The shim's operations *)

Inductive shim_op : Type :=
| Initialize
| GaussianBlur (in_ out : ptr) (sigma : float)
| AffineInterpolator (in_ out : ptr) (a b c d : float) (interpolator : ptr)
| JpegloadBufferSeq (buf : ptr) (len : Z) (out : ptr)
| Magickload (filename : string) (out : ptr)
| JpegloadBufferShrink (buf : ptr) (len : Z) (out : ptr) (shrink : Z)
| PngloadBufferSeq (buf : ptr) (len : Z) (out : ptr)
| Shrink0 (in_ out : ptr) (xshrink yshrink : float)
| Copy0 (in_ out : ptr)
| Flatten0 (in_ out : ptr)
| EmbedExtend (in_ out : ptr) (left top width height extend : Z)
| Colourspace0 (in_ out : ptr) (space : Z)
| ExtractArea0 (in_ out : ptr) (left top width height : Z)
| JpegsaveCustom (in_ buf len : ptr) (strip quality interlace : Z).

Definition denote (op : shim_op) : prog Z :=
  match op with
  | Initialize => vips_initialize
  | GaussianBlur i o sigma => vips_gaussian_blur i o sigma
  | AffineInterpolator i o a b c d ip => vips_affine_interpolator i o a b c d ip
  | JpegloadBufferSeq b n o => vips_jpegload_buffer_seq b n o
  | Magickload fn o => vips_magickload_ fn o
  | JpegloadBufferShrink b n o s => vips_jpegload_buffer_shrink b n o s
  | PngloadBufferSeq b n o => vips_pngload_buffer_seq b n o
  | Shrink0 i o x y => vips_shrink_0 i o x y
  | Copy0 i o => vips_copy_0 i o
  | Flatten0 i o => vips_flatten_0 i o
  | EmbedExtend i o l t w h e => vips_embed_extend i o l t w h e
  | Colourspace0 i o s => vips_colourspace_0 i o s
  | ExtractArea0 i o l t w h => vips_extract_area_0 i o l t w h
  | JpegsaveCustom i b n s q il => vips_jpegsave_custom i b n s q il
  end.

(** The library function whose status an operation returns. *)
Definition primary (op : shim_op) : lib_fn :=
  match op with
  | Initialize => vips_init
  | GaussianBlur _ _ _ => vips_gaussblur
  | AffineInterpolator _ _ _ _ _ _ _ => vips_affine
  | JpegloadBufferSeq _ _ _ => vips_jpegload_buffer
  | Magickload _ _ => vips_magickload
  | JpegloadBufferShrink _ _ _ _ => vips_jpegload_buffer
  | PngloadBufferSeq _ _ _ => vips_pngload_buffer
  | Shrink0 _ _ _ _ => vips_shrink
  | Copy0 _ _ => vips_copy
  | Flatten0 _ _ => vips_flatten
  | EmbedExtend _ _ _ _ _ _ _ => vips_embed
  | Colourspace0 _ _ _ => vips_colourspace
  | ExtractArea0 _ _ _ _ _ _ => vips_extract_area
  | JpegsaveCustom _ _ _ _ _ _ => vips_jpegsave_buffer
  end.

(** The output parameters of an operation: the handle slot [out], or the
    buffer pointer [buf] and its length [len]. *)
Definition outputs (op : shim_op) : list ptr :=
  match op with
  | Initialize => []
  | GaussianBlur _ o _ => [o]
  | AffineInterpolator _ o _ _ _ _ _ => [o]
  | JpegloadBufferSeq _ _ o => [o]
  | Magickload _ o => [o]
  | JpegloadBufferShrink _ _ o _ => [o]
  | PngloadBufferSeq _ _ o => [o]
  | Shrink0 _ o _ _ => [o]
  | Copy0 _ o => [o]
  | Flatten0 _ o => [o]
  | EmbedExtend _ o _ _ _ _ _ => [o]
  | Colourspace0 _ o _ => [o]
  | ExtractArea0 _ o _ _ _ _ => [o]
  | JpegsaveCustom _ b n _ _ _ => [b; n]
  end.

(** ** Observing the world *)

Section Observe.

Variable W : Type.

(** The images the library manages, by handle, and the caller's
    memory, by address: both are the library's to define. *)
Variable I : Type.
Variable picture : W -> ptr -> option I.
Variable load : W -> ptr -> option cval.

Variable lib : library W.

(** The image whose handle an output slot holds. *)
Definition image_at (w : W) (slot : ptr) : option I :=
  match load w slot with
  | Some (VPtr h) => picture w h
  | _ => None
  end.

(** The world a library call made on its own leaves. *)
Definition lib_finish (f : lib_fn) (args : list cval) (w : W) : option W :=
  option_map snd (lib_call lib f args w).

(** The world a shim operation leaves. *)
Definition finish (p : prog Z) (w : W) : option W :=
  option_map (fun r => snd (fst r)) (exec lib p w).

(** [p] run from [w] is one call of [f], on the required arguments
    [req] and the options [opts], whose status it returns. *)
Definition single_call (p : prog Z) (w : W) (f : lib_fn) (req : list cval)
    (opts : list (string * cval)) : Prop :=
  exists (e : event) (st : Z) (w' : W),
    exec lib p w = Some (st, w', [e]) /\
    ev_fn e = f /\ ev_required e = req /\ ev_options e = Some opts /\
    ev_status e = Some st /\
    lib (ev_fn e) (ev_args e) w = (ev_res e, w').

(** The elements of the background array a run of [vips_flatten_0]
    hands to the library. *)
Definition flatten_0_background (in_ out : ptr) (w : W) : option (list float) :=
  match exec lib (vips_flatten_0 in_ out) w with
  | Some (_, _, tr) => flatten_background tr tr
  | None => None
  end.

(** Decode, then shrink the image left in [slot]. *)
Definition then_shrink (decode : W -> option W) (shrink : ptr -> W -> option W)
    (slot : ptr) (w : W) : option W :=
  match decode w with
  | Some w1 =>
      match load w1 slot with
      | Some (VPtr img) => shrink img w1
      | _ => None
      end
  | None => None
  end.

(** The library's side of the output convention: a call that does not
    return the status 0 leaves the location [p] as it was. *)
Definition writes_on_success_only (p : ptr) : Prop :=
  forall (f : lib_fn) (args : list cval) (w : W),
    ev_status (Event f args (fst (lib f args w))) <> Some 0 ->
    load (snd (lib f args w)) p = load w p.

(** The image in slot [out] of [w'] is equivalent to the one [in_]
    designates in [w]. *)
Definition output_equiv_input (equiv : I -> I -> Prop)
    (w : W) (in_ : ptr) (w' : W) (out : ptr) : Prop :=
  exists i o, picture w in_ = Some i /\ image_at w' out = Some o /\ equiv o i.

(** The dimensions of the image in slot [outA] of [wa] and of the one in
    slot [outB] of [wb] match. *)
Definition dimensions_match (dims : I -> Z * Z) (matching : Z * Z -> Z * Z -> Prop)
    (wa : W) (outA : ptr) (wb : W) (outB : ptr) : Prop :=
  exists a b, image_at wa outA = Some a /\ image_at wb outB = Some b /\
              matching (dims a) (dims b).

End Observe.

(** ** A stub library for concrete runs

    Pictures are their dimensions.  The stub decoder reads a buffer of
    [len] bytes as a [len] by [len] picture; every entry point fails with
    -1 on a null or unknown input and then leaves the world alone.  Areas
    are counted references: a new array starts at one reference and is
    freed when its last reference is released. *)

Record stub_world : Type := StubWorld {
  slots : list (ptr * cval);
  pictures : list (ptr * (Z * Z));
  areas : list (ptr * (Z * list float))
}.

Fixpoint assoc {V : Type} (l : list (ptr * V)) (p : ptr) : option V :=
  match l with
  | [] => None
  | (q, v) :: l' => if p =? q then Some v else assoc l' p
  end.

Fixpoint dissoc {V : Type} (l : list (ptr * V)) (p : ptr) : list (ptr * V) :=
  match l with
  | [] => []
  | (q, v) :: l' => if p =? q then dissoc l' p else (q, v) :: dissoc l' p
  end.

Definition stub_load (w : stub_world) (p : ptr) : option cval := assoc (slots w) p.
Definition stub_picture (w : stub_world) (h : ptr) : option (Z * Z) := assoc (pictures w) h.

Definition stub_fresh (w : stub_world) : ptr :=
  4096 + Z.of_nat (List.length (pictures w)).

(** Ceiling division, for the stub's shrinking. *)
Definition cdiv (a b : Z) : Z := (a + b - 1) / b.

Definition stub_emit (w : stub_world) (out : ptr) (d : Z * Z) : Z * stub_world :=
  if out =? 0 then (-1, w)
  else (0, {| slots := (out, VPtr (stub_fresh w)) :: slots w;
              pictures := (stub_fresh w, d) :: pictures w;
              areas := areas w |}).

Definition stub_decode (args : list cval) (w : stub_world) : Z * stub_world :=
  match args with
  | VPtr buf :: VSize len :: VPtr out :: opts =>
      match options opts with
      | Some o =>
          let n := match lookup_option "shrink" o with
                   | Some (VInt n) => n
                   | _ => 1
                   end in
          if ((buf =? 0) || (n <=? 0))%bool then (-1, w)
          else stub_emit w out (cdiv len n, cdiv len n)
      | None => (-1, w)
      end
  | _ => (-1, w)
  end.

Definition stub_transform (g : list cval -> Z * Z -> option (Z * Z))
    (args : list cval) (w : stub_world) : Z * stub_world :=
  match args with
  | VPtr i :: VPtr out :: rest =>
      match stub_picture w i with
      | Some d =>
          match g rest d with
          | Some d' => stub_emit w out d'
          | None => (-1, w)
          end
      | None => (-1, w)
      end
  | _ => (-1, w)
  end.

Definition stub_same (rest : list cval) (d : Z * Z) : option (Z * Z) := Some d.

Definition stub_shrunk (rest : list cval) (d : Z * Z) : option (Z * Z) :=
  match rest with
  | VDouble x :: VDouble y :: _ =>
      match double_to_int x, double_to_int y with
      | Some xi, Some yi =>
          if ((0 <? xi) && (0 <? yi))%bool
          then Some (cdiv (fst d) xi, cdiv (snd d) yi)
          else None
      | _, _ => None
      end
  | _ => None
  end.

Definition stub_sized (rest : list cval) (d : Z * Z) : option (Z * Z) :=
  match rest with
  | VInt _ :: VInt _ :: VInt width :: VInt height :: _ => Some (width, height)
  | _ => None
  end.

Definition stub_save (args : list cval) (w : stub_world) : Z * stub_world :=
  match args with
  | VPtr i :: VPtr buf :: VPtr len :: _ =>
      match stub_picture w i with
      | Some d =>
          (0, {| slots := (buf, VPtr 8192) :: (len, VSize (fst d * snd d)) :: slots w;
                 pictures := pictures w;
                 areas := areas w |})
      | None => (-1, w)
      end
  | _ => (-1, w)
  end.

Definition stub_newv (args : list cval) (w : stub_world) : ptr * stub_world :=
  match array_double_elems args with
  | Some ds =>
      let p := 12288 + Z.of_nat (List.length (areas w)) in
      (p, {| slots := slots w;
             pictures := pictures w;
             areas := (p, (1, ds)) :: areas w |})
  | None => (0, w)
  end.

Definition stub_unref (args : list cval) (w : stub_world) : unit * stub_world :=
  match args with
  | [VPtr p] =>
      match assoc (areas w) p with
      | Some (n, ds) =>
          (tt, {| slots := slots w;
                  pictures := pictures w;
                  areas := if n <=? 1 then dissoc (areas w) p
                           else (p, (n - 1, ds)) :: dissoc (areas w) p |})
      | None => (tt, w)
      end
  | _ => (tt, w)
  end.

Definition stub_lib : library stub_world :=
  fun f =>
    match f as f0 return list cval -> stub_world -> result f0 * stub_world with
    | vips_init => fun _ w => (0, w)
    | vips_gaussblur => stub_transform stub_same
    | vips_affine => stub_transform stub_same
    | vips_jpegload_buffer => stub_decode
    | vips_magickload =>
        fun args w =>
          match args with
          | VStr _ :: VPtr out :: _ => stub_emit w out (1, 1)
          | _ => (-1, w)
          end
    | vips_pngload_buffer => stub_decode
    | vips_shrink => stub_transform stub_shrunk
    | vips_copy => stub_transform stub_same
    | vips_array_double_newv => stub_newv
    | vips_flatten => stub_transform stub_same
    | vips_area_unref => stub_unref
    | vips_embed => stub_transform stub_sized
    | vips_colourspace => stub_transform stub_same
    | vips_extract_area => stub_transform stub_sized
    | vips_jpegsave_buffer => stub_save
    end.

(** A world with one 100 by 60 picture, at handle 7, and no area. *)
Definition stub_start : stub_world :=
  {| slots := []; pictures := [(7, (100, 60))]; areas := [] |}.

(** ** Calls as the source writes them *)

Section Written.

Variable W : Type.
Variable lib : library W.

(** The calls of a run with the arguments as written, before any
    conversion to the named parameters' types. *)
Fixpoint written {A : Type} (p : prog A) (w : W)
    : option (list (lib_fn * list cval)) :=
  match p with
  | Ret _ => Some []
  | Call f args k =>
      match pass_args f args with
      | None => None
      | Some args' =>
          let rw := lib f args' w in
          match written (k (fst rw)) (snd rw) with
          | Some calls => Some ((f, args) :: calls)
          | None => None
          end
      end
  end.

End Written.

Arguments written {W} lib {A} p w.

(** The function and the received arguments of each call of a trace,
    without what the library answered. *)
Definition signature (tr : list event) : list (lib_fn * list cval) :=
  map (fun e => (ev_fn e, ev_args e)) tr.

(** The calls the source ends with [NULL]: every library function but
    [vips_init], [vips_array_double_newv] and [vips_area_unref]. *)
Definition takes_options (f : lib_fn) : bool :=
  match f with
  | vips_init => false
  | vips_array_double_newv => false
  | vips_area_unref => false
  | _ => true
  end.

Definition is_flatten (op : shim_op) : bool :=
  match op with
  | Flatten0 _ _ => true
  | _ => false
  end.

(** ** The library's calls on their own *)

Section Replay.

Variable W : Type.
Variable lib : library W.

(** The world the calls of a trace leave when the library makes them one
    after the other, with nothing in between. *)
Fixpoint replay (tr : list event) (w : W) : W :=
  match tr with
  | [] => w
  | e :: tr' => replay tr' (snd (lib (ev_fn e) (ev_args e) w))
  end.

End Replay.

(** ** Libraries that do not keep the conventions

    Each is the stub but for one entry point. *)

(** A library that fails late: its [vips_jpegsave_buffer] stores the
    buffer and its length, then reports -1. *)
Definition late_failing_lib : library stub_world :=
  fun f =>
    match f as f0 return list cval -> stub_world -> result f0 * stub_world with
    | vips_jpegsave_buffer => fun args w => (-1, snd (stub_save args w))
    | f0 => stub_lib f0
    end.

(** A library whose [vips_shrink] drops the last row and column, whatever
    the factors. *)
Definition stub_cropped (rest : list cval) (d : Z * Z) : option (Z * Z) :=
  Some (fst d - 1, snd d - 1).

Definition cropping_lib : library stub_world :=
  fun f =>
    match f as f0 return list cval -> stub_world -> result f0 * stub_world with
    | vips_shrink => stub_transform stub_cropped
    | f0 => stub_lib f0
    end.

(** A library whose JPEG decoder accepts the option "shrink" and decodes
    at full size all the same. *)
Definition stub_decode_full (args : list cval) (w : stub_world) : Z * stub_world :=
  match args with
  | VPtr buf :: VSize len :: VPtr out :: opts =>
      match options opts with
      | Some _ => if buf =? 0 then (-1, w) else stub_emit w out (len, len)
      | None => (-1, w)
      end
  | _ => (-1, w)
  end.

Definition full_size_lib : library stub_world :=
  fun f =>
    match f as f0 return list cval -> stub_world -> result f0 * stub_world with
    | vips_jpegload_buffer => stub_decode_full
    | f0 => stub_lib f0
    end.

(** Dimensions that differ by at most one pixel each way: what any
    rounding of one division can account for. *)
Definition within_rounding (a b : Z * Z) : Prop :=
  Z.abs (fst a - fst b) <= 1 /\ Z.abs (snd a - snd b) <= 1.

(** * Properties of the shim *)

Section Properties.

Variable W : Type.
Variable lib : library W.

(** ** Running the operations *)

Ltac run_single :=
  unfold single_call;
  eexists _, _, _; split; [reflexivity |];
  repeat split; cbn [ev_fn ev_args ev_res]; apply surjective_pairing.

Lemma gaussian_blur_single (i o : ptr) (sigma : float) (w : W) :
  single_call lib (vips_gaussian_blur i o sigma) w vips_gaussblur
    [VPtr i; VPtr o; VDouble sigma] [].
Proof. run_single. Qed.

Lemma jpegload_buffer_seq_single (buf : ptr) (len : Z) (out : ptr) (w : W) :
  single_call lib (vips_jpegload_buffer_seq buf len out) w vips_jpegload_buffer
    [VPtr buf; VSize len; VPtr out]
    [("access"%string, VInt (access_code VIPS_ACCESS_SEQUENTIAL))].
Proof. run_single. Qed.

Lemma pngload_buffer_seq_single (buf : ptr) (len : Z) (out : ptr) (w : W) :
  single_call lib (vips_pngload_buffer_seq buf len out) w vips_pngload_buffer
    [VPtr buf; VSize len; VPtr out]
    [("access"%string, VInt (access_code VIPS_ACCESS_SEQUENTIAL))].
Proof. run_single. Qed.

Lemma jpegload_buffer_shrink_single (buf : ptr) (len : Z) (out : ptr) (shrink : Z)
    (w : W) :
  single_call lib (vips_jpegload_buffer_shrink buf len out shrink) w
    vips_jpegload_buffer
    [VPtr buf; VSize len; VPtr out] [("shrink"%string, VInt shrink)].
Proof. run_single. Qed.

Lemma shrink_0_single (i o : ptr) (x y : float) (w : W) :
  single_call lib (vips_shrink_0 i o x y) w vips_shrink
    [VPtr i; VPtr o; VDouble x; VDouble y] [].
Proof. run_single. Qed.

Lemma copy_0_single (i o : ptr) (w : W) :
  single_call lib (vips_copy_0 i o) w vips_copy [VPtr i; VPtr o] [].
Proof. run_single. Qed.

Lemma colourspace_0_single (i o : ptr) (space : Z) (w : W) :
  single_call lib (vips_colourspace_0 i o space) w vips_colourspace
    [VPtr i; VPtr o; VInt space] [].
Proof. run_single. Qed.

(** The three calls of [vips_flatten_0], whatever the library answers. *)
Lemma flatten_0_run (i o : ptr) (w : W) :
  let a := lib vips_array_double_newv [VInt 1; VDouble 255.0] w in
  let b := lib vips_flatten
             [VPtr i; VPtr o; VStr "background"; VPtr (fst a); NULL] (snd a) in
  let c := lib vips_area_unref [VPtr (fst a)] (snd b) in
  exec lib (vips_flatten_0 i o) w =
    Some (fst b, snd c,
          [Event vips_array_double_newv [VInt 1; VDouble 255.0] (fst a);
           Event vips_flatten
             [VPtr i; VPtr o; VStr "background"; VPtr (fst a); NULL] (fst b);
           Event vips_area_unref [VPtr (fst a)] tt]).
Proof.
  intros a b c. subst a b c. cbn.
  match goal with
  | |- context [Event vips_area_unref _ ?u] => destruct u
  end.
  reflexivity.
Qed.

(** ** Status codes *)

(** C3: every operation returns the status code of the one library call
    that returns a status code, unchanged: whatever the library, the run
    is defined, the only status code in its trace comes from the
    operation's library function, and it is the value returned. *)
Theorem status_propagated_unchanged (op : shim_op) (w : W) :
  exists (st : Z) (w' : W) (tr : list event),
    exec lib (denote op) w = Some (st, w', tr) /\
    statuses tr = [(primary op, st)].
Proof.
  destruct op; eexists _, _, _; split; reflexivity.
Qed.

(** C10: [vips_initialize] takes no argument, makes the single call
    [vips_init ("govips")] and returns that call's status code. *)
Theorem initialize_registers_govips (w : W) :
  exists (st : Z) (w' : W),
    lib vips_init [VStr "govips"] w = (st, w') /\
    exec lib vips_initialize w =
      Some (st, w', [Event vips_init [VStr "govips"] st]).
Proof.
  eexists _, _. split; [apply surjective_pairing | reflexivity].
Qed.

(** ** Options handed to the library *)

(** C5: both sequential buffer decoders call their loader on the buffer,
    its length and the output slot, with the one option "access" set to
    [VIPS_ACCESS_SEQUENTIAL] and no other. *)
Theorem buffer_decoders_force_sequential (buf : ptr) (len : Z) (out : ptr) (w : W) :
  single_call lib (vips_jpegload_buffer_seq buf len out) w vips_jpegload_buffer
    [VPtr buf; VSize len; VPtr out]
    [("access"%string, VInt (access_code VIPS_ACCESS_SEQUENTIAL))] /\
  single_call lib (vips_pngload_buffer_seq buf len out) w vips_pngload_buffer
    [VPtr buf; VSize len; VPtr out]
    [("access"%string, VInt (access_code VIPS_ACCESS_SEQUENTIAL))].
Proof.
  split; [apply jpegload_buffer_seq_single | apply pngload_buffer_seq_single].
Qed.

(** C6: [vips_jpegsave_custom] hands its [strip], [quality] and
    [interlace] arguments to the encoder as the options "strip", "Q" and
    "interlace", and always sets "optimize_coding" to [TRUE], which is
    not zero. *)
Theorem jpegsave_custom_options (in_ buf len : ptr) (strip quality interlace : Z)
    (w : W) :
  single_call lib (vips_jpegsave_custom in_ buf len strip quality interlace) w
    vips_jpegsave_buffer
    [VPtr in_; VPtr buf; VPtr len]
    [("strip"%string, VInt strip); ("Q"%string, VInt quality);
     ("optimize_coding"%string, VInt TRUE);
     ("interlace"%string, VInt interlace)] /\
  TRUE <> FALSE.
Proof.
  split; [run_single | discriminate].
Qed.

(** C9: [vips_jpegload_buffer_shrink] sets the one option "shrink", to
    its [shrink] argument; there is no "access" among its options, while
    the sequential decoder has one. *)
Theorem jpegload_buffer_shrink_only_shrink (buf : ptr) (len : Z) (out : ptr)
    (shrink : Z) (w : W) :
  single_call lib (vips_jpegload_buffer_shrink buf len out shrink) w
    vips_jpegload_buffer
    [VPtr buf; VSize len; VPtr out] [("shrink"%string, VInt shrink)] /\
  lookup_option "access" [("shrink"%string, VInt shrink)] = None /\
  exists (o : list (string * cval)),
    single_call lib (vips_jpegload_buffer_seq buf len out) w vips_jpegload_buffer
      [VPtr buf; VSize len; VPtr out] o /\
    lookup_option "access" o = Some (VInt (access_code VIPS_ACCESS_SEQUENTIAL)).
Proof.
  split; [apply jpegload_buffer_shrink_single |].
  split; [reflexivity |].
  eexists. split; [apply jpegload_buffer_seq_single | reflexivity].
Qed.

(** ** The background array of the flatten operation *)

(** C1, amended: the array [vips_flatten_0] builds has one element, 255:
    the allocator receives the count 1 (the source's [1.0], converted to
    the [int] its prototype declares) and the single value 255.0.  It is
    handed to [vips_flatten] as the only option, "background". *)
Theorem flatten_background_one_white_element (in_ out : ptr) (w : W) :
  flatten_0_background lib in_ out w = Some [255.0%float] /\
  exists (white : ptr) (st : Z) (w' : W) (e1 e2 e3 : event),
    exec lib (vips_flatten_0 in_ out) w = Some (st, w', [e1; e2; e3]) /\
    e1 = Event vips_array_double_newv [VInt 1; VDouble 255.0] white /\
    ev_fn e2 = vips_flatten /\
    ev_required e2 = [VPtr in_; VPtr out] /\
    ev_options e2 = Some [("background"%string, VPtr white)].
Proof.
  split.
  - unfold flatten_0_background. rewrite flatten_0_run. cbn.
    rewrite Z.eqb_refl. reflexivity.
  - eexists _, _, _, _, _, _. split; [apply flatten_0_run |].
    repeat split.
Qed.

(** C2: whatever the library and its answers, [vips_flatten_0] allocates
    the array in the call just before [vips_flatten], hands that pointer
    to [vips_flatten], releases the same pointer in the call just after,
    whatever status [vips_flatten] returned, and returns that status:
    the shim holds no reference to the array when it returns. *)
Theorem flatten_array_released (in_ out : ptr) (w : W) :
  exists (white : ptr) (st : Z) (w' : W) (tr : list event),
    exec lib (vips_flatten_0 in_ out) w = Some (st, w', tr) /\
    tr = [Event vips_array_double_newv [VInt 1; VDouble 255.0] white;
          Event vips_flatten
            [VPtr in_; VPtr out; VStr "background"; VPtr white; NULL] st;
          Event vips_area_unref [VPtr white] tt] /\
    area_refs tr white = 0 /\
    area_refs (firstn 2 tr) white = 1.
Proof.
  eexists _, _, _, _. split; [apply flatten_0_run |].
  split; [reflexivity |].
  cbn. rewrite Z.eqb_refl. split; reflexivity.
Qed.

(** ** Output parameters *)


(** ** Passthroughs *)



End Properties.

(** C1 as stated fails: run against the stub library on the stub's
    picture, the background array does not have two elements. *)
Lemma flatten_background_not_two_elements :
  ~ (exists l : list float,
       flatten_0_background stub_lib 7 500 stub_start = Some l /\
       List.length l = 2%nat).
Proof.
  intros (l & Hl & Hlen). vm_compute in Hl.
  injection Hl as <-. discriminate Hlen.
Qed.




(** ** The stub library *)

Ltac split_matches :=
  repeat match goal with
         | |- context [match ?x with _ => _ end] => destruct x
         end.

Lemma stub_emit_clean (w : stub_world) (out : ptr) (d : Z * Z) :
  slots (snd (stub_emit w out d)) = slots w \/ fst (stub_emit w out d) = 0.
Proof.
  unfold stub_emit. destruct (out =? 0); [left | right]; reflexivity.
Qed.

Lemma stub_transform_clean (g : list cval -> Z * Z -> option (Z * Z))
    (args : list cval) (w : stub_world) :
  slots (snd (stub_transform g args w)) = slots w \/
  fst (stub_transform g args w) = 0.
Proof.
  unfold stub_transform.
  split_matches; try (left; reflexivity); apply stub_emit_clean.
Qed.

Lemma stub_decode_clean (args : list cval) (w : stub_world) :
  slots (snd (stub_decode args w)) = slots w \/ fst (stub_decode args w) = 0.
Proof.
  unfold stub_decode.
  split_matches; try (left; reflexivity); apply stub_emit_clean.
Qed.

Lemma stub_save_clean (args : list cval) (w : stub_world) :
  slots (snd (stub_save args w)) = slots w \/ fst (stub_save args w) = 0.
Proof.
  unfold stub_save.
  split_matches; try (left; reflexivity); right; reflexivity.
Qed.

(** The area calls of the stub never touch the caller's slots. *)
Lemma stub_newv_slots (args : list cval) (w : stub_world) :
  slots (snd (stub_newv args w)) = slots w.
Proof.
  unfold stub_newv. destruct (array_double_elems args); reflexivity.
Qed.

Lemma stub_unref_slots (args : list cval) (w : stub_world) :
  slots (snd (stub_unref args w)) = slots w.
Proof.
  unfold stub_unref. split_matches; reflexivity.
Qed.

(** Every call of the stub either returns the status 0 or leaves the
    slots alone. *)
Lemma stub_fails_clean (f : lib_fn) (args : list cval) (w : stub_world) :
  slots (snd (stub_lib f args w)) = slots w \/
  ev_status (Event f args (fst (stub_lib f args w))) = Some 0.
Proof.
  assert (Hstatus : forall r : Z * stub_world,
             slots (snd r) = slots w \/ fst r = 0 ->
             slots (snd r) = slots w \/ Some (fst r) = Some 0).
  { intros r [H | H]; [left; exact H | right; f_equal; exact H]. }
  destruct f; cbn;
    try (left; reflexivity);
    try (apply Hstatus; apply stub_transform_clean);
    try (apply Hstatus; apply stub_decode_clean);
    try (apply Hstatus; apply stub_save_clean).
  - destruct args as [| [] [| [] ?]]; try (left; reflexivity).
    apply Hstatus. apply stub_emit_clean.
  - left. apply stub_newv_slots.
  - left. apply stub_unref_slots.
Qed.

(** The stub honours the output convention at every location. *)
Lemma stub_writes_on_success_only (p : ptr) :
  writes_on_success_only stub_load stub_lib p.
Proof.
  intros f args w Hst. unfold stub_load.
  destruct (stub_fails_clean f args w) as [Hslots | Hzero];
    [rewrite Hslots; reflexivity | contradiction].
Qed.

(** ** Concrete runs *)

Example double_to_int_one : double_to_int 1.0 = Some 1.
Proof. reflexivity. Qed.

Example double_to_int_truncates : double_to_int (-255.75) = Some (-255).
Proof. reflexivity. Qed.

Example newv_arguments_received :
  pass_args vips_array_double_newv [VDouble 1.0; VDouble 255.0]
    = Some [VInt 1; VDouble 255.0].
Proof. reflexivity. Qed.

(** The stub's allocator on the arguments it receives from
    [vips_flatten_0]: one area, one reference, one element. *)
Example newv_on_stub :
  stub_lib vips_array_double_newv [VInt 1; VDouble 255.0] stub_start =
    (12288,
     {| slots := [];
        pictures := [(7, (100, 60))];
        areas := [(12288, (1, [255.0%float]))] |}).
Proof. reflexivity. Qed.

(** Flattening the stub's picture: three calls, status 0, the new handle in
    the slot, no area left. *)
Example flatten_0_on_stub :
  exec stub_lib (vips_flatten_0 7 500) stub_start =
    Some (0,
          {| slots := [(500, VPtr 4097)];
             pictures := [(4097, (100, 60)); (7, (100, 60))];
             areas := [] |},
          [Event vips_array_double_newv [VInt 1; VDouble 255.0] 12288;
           Event vips_flatten
             [VPtr 7; VPtr 500; VStr "background"; VPtr 12288; NULL] 0;
           Event vips_area_unref [VPtr 12288] tt]).
Proof. reflexivity. Qed.

(** Flattening a null handle: the same three calls, status -1, nothing
    written, no area left. *)
Example flatten_0_null_on_stub :
  exec stub_lib (vips_flatten_0 0 500) stub_start =
    Some (-1, stub_start,
          [Event vips_array_double_newv [VInt 1; VDouble 255.0] 12288;
           Event vips_flatten
             [VPtr 0; VPtr 500; VStr "background"; VPtr 12288; NULL] (-1);
           Event vips_area_unref [VPtr 12288] tt]).
Proof. reflexivity. Qed.

Example jpegsave_custom_null_on_stub :
  option_map (fun r => (fst (fst r), snd (fst r)))
    (exec stub_lib (vips_jpegsave_custom 0 500 508 1 80 0) stub_start)
    = Some (-1, stub_start).
Proof. reflexivity. Qed.


(** With the stub, whose [vips_shrink] and [vips_copy] keep a picture's
    dimensions at no-op arguments, the passthroughs do too. *)
Example passthroughs_on_stub :
  (exists w',
     finish stub_lib (vips_shrink_0 7 500 1.0 1.0) stub_start = Some w' /\
     output_equiv_input stub_picture stub_load eq stub_start 7 w' 500) /\
  (exists w',
     finish stub_lib (vips_copy_0 7 500) stub_start = Some w' /\
     output_equiv_input stub_picture stub_load eq stub_start 7 w' 500) /\
  (exists w',
     finish stub_lib (vips_colourspace_0 7 500 22) stub_start = Some w' /\
     output_equiv_input stub_picture stub_load eq stub_start 7 w' 500).
Proof.
  repeat split;
    (eexists; split; [vm_compute; reflexivity |]);
    exists (100, 60), (100, 60); repeat split.
Qed.

(** With the stub, whose decoder and [vips_shrink] both round up, the two
    ways of shrinking a 101 byte buffer by 2 agree on 51 by 51. *)
Example shrink_pipelines_on_stub :
  exists wa wb,
    finish stub_lib (vips_jpegload_buffer_shrink 900 101 500 2) stub_start
      = Some wa /\
    then_shrink stub_load
      (finish stub_lib (vips_jpegload_buffer_seq 900 101 600))
      (fun img =>
         finish stub_lib
           (vips_shrink_0 img 700 (int_to_double 2) (int_to_double 2)))
      600 stub_start = Some wb /\
    dimensions_match stub_picture stub_load (fun d => d) eq wa 500 wb 700.
Proof.
  eexists _, _. split; [vm_compute; reflexivity |].
  split; [vm_compute; reflexivity |].
  exists (51, 51), (51, 51). repeat split.
Qed.

(** * The remaining operations, and what holds of all of them *)

Section Operations.

Variable W : Type.
Variable lib : library W.

Ltac run_one :=
  unfold single_call;
  eexists _, _, _; split; [reflexivity |];
  repeat split; cbn [ev_fn ev_args ev_res]; apply surjective_pairing.

(** X1: [vips_gaussian_blur] makes one [vips_gaussblur] call on the
    image, the output slot and [sigma], with an empty option list:
    neither "precision" nor "min_ampl" is set, for any [sigma]. *)
Theorem gaussian_blur_sets_no_option (in_ out : ptr) (sigma : float) (w : W) :
  single_call lib (vips_gaussian_blur in_ out sigma) w vips_gaussblur
    [VPtr in_; VPtr out; VDouble sigma] [].
Proof. run_one. Qed.

(** X2: [vips_affine_interpolator] hands the four matrix entries to
    [vips_affine] in the order [a], [b], [c], [d], and the interpolator
    as the one option "interpolate", a null interpolator included. *)
Theorem affine_interpolator_options (in_ out : ptr) (a b c d : float)
    (interpolator : ptr) (w : W) :
  single_call lib (vips_affine_interpolator in_ out a b c d interpolator) w
    vips_affine
    [VPtr in_; VPtr out; VDouble a; VDouble b; VDouble c; VDouble d]
    [("interpolate"%string, VPtr interpolator)].
Proof. run_one. Qed.

(** X3: [vips_magickload_] makes one [vips_magickload] call on the file
    name and the output slot, with an empty option list. *)
Theorem magickload_sets_no_option (filename : string) (out : ptr) (w : W) :
  single_call lib (vips_magickload_ filename out) w vips_magickload
    [VStr filename; VPtr out] [].
Proof. run_one. Qed.

(** X4: [vips_embed_extend] hands [left], [top], [width], [height] to
    [vips_embed] in that order, and [extend] as the one option
    "extend". *)
Theorem embed_extend_options (in_ out : ptr) (left top width height extend : Z)
    (w : W) :
  single_call lib (vips_embed_extend in_ out left top width height extend) w
    vips_embed
    [VPtr in_; VPtr out; VInt left; VInt top; VInt width; VInt height]
    [("extend"%string, VInt extend)].
Proof. run_one. Qed.

(** X5: [vips_extract_area_0] hands [left], [top], [width], [height] to
    [vips_extract_area] in that order, with an empty option list. *)
Theorem extract_area_sets_no_option (in_ out : ptr) (left top width height : Z)
    (w : W) :
  single_call lib (vips_extract_area_0 in_ out left top width height) w
    vips_extract_area
    [VPtr in_; VPtr out; VInt left; VInt top; VInt width; VInt height] [].
Proof. run_one. Qed.

(** The three calls of [vips_flatten_0] again, for this section. *)
Lemma flatten_0_trace (i o : ptr) (w : W) :
  exists (white : ptr) (st : Z) (w' : W),
    exec lib (vips_flatten_0 i o) w =
      Some (st, w',
            [Event vips_array_double_newv [VInt 1; VDouble 255.0] white;
             Event vips_flatten
               [VPtr i; VPtr o; VStr "background"; VPtr white; NULL] st;
             Event vips_area_unref [VPtr white] tt]).
Proof.
  eexists _, _, _. cbn.
  match goal with
  | |- context [Event vips_area_unref _ ?u] => destruct u
  end.
  reflexivity.
Qed.

(** X6: no operation leaves an area reference behind or releases one it
    did not take: for every pointer, allocations and releases of a run
    balance.  Only [vips_flatten_0] makes more than one call. *)
Theorem area_references_balance (op : shim_op) (w : W) (p : ptr) :
  exists (st : Z) (w' : W) (tr : list event),
    exec lib (denote op) w = Some (st, w', tr) /\
    area_refs tr p = 0 /\
    List.length tr = (if is_flatten op then 3 else 1)%nat.
Proof.
  destruct op;
    try (eexists _, _, _; split; [reflexivity | split; reflexivity]).
  destruct (flatten_0_trace in_ out w) as (white & st & w' & Hrun).
  eexists st, w', _. split; [exact Hrun |].
  split; [| reflexivity].
  cbn. destruct (p =? white); reflexivity.
Qed.

Ltac each_event :=
  repeat (apply Forall_cons;
          [first [left; reflexivity | right; eexists; split; reflexivity] |]);
  apply Forall_nil.

(** X7: every call that takes options is properly ended: its variadic
    arguments are name, value pairs followed by [NULL] as the very last
    argument, whatever the values, null pointers included. *)
Theorem option_lists_end_with_null (op : shim_op) (w : W) :
  exists (st : Z) (w' : W) (tr : list event),
    exec lib (denote op) w = Some (st, w', tr) /\
    Forall
      (fun e =>
         takes_options (ev_fn e) = false \/
         exists o : list (string * cval),
           ev_options e = Some o /\
           variadic (ev_fn e) (ev_args e)
             = flat_map (fun nv => [VStr (fst nv); snd nv]) o ++ [NULL])
      tr.
Proof.
  destruct op; eexists _, _, _; (split; [reflexivity |]); each_event.
Qed.

(** X8: every argument an operation writes for a named parameter already
    has that parameter's type, so the library receives it as written;
    the one exception in the file is the count of
    [vips_array_double_newv]. *)
Theorem arguments_pass_unconverted (op : shim_op) (w : W) :
  exists calls : list (lib_fn * list cval),
    written lib (denote op) w = Some calls /\
    Forall
      (fun c =>
         fst c = vips_array_double_newv \/
         pass_args (fst c) (snd c) = Some (snd c))
      calls.
Proof.
  destruct op; eexists; (split; [reflexivity |]);
    repeat (apply Forall_cons;
            [first [left; reflexivity | right; reflexivity] |]);
    apply Forall_nil.
Qed.

End Operations.

(** X9: the calls an operation makes do not depend on what the library
    answers: against any two libraries, from any two worlds, it calls
    the same functions in the same order, and but for [vips_flatten_0],
    whose array pointer comes from the library, on the same
    arguments. *)
Theorem calls_independent_of_library (W1 W2 : Type) (lib1 : library W1)
    (lib2 : library W2) (op : shim_op) (w1 : W1) (w2 : W2) :
  exists (st1 st2 : Z) (w1' : W1) (w2' : W2) (tr1 tr2 : list event),
    exec lib1 (denote op) w1 = Some (st1, w1', tr1) /\
    exec lib2 (denote op) w2 = Some (st2, w2', tr2) /\
    map ev_fn tr1 = map ev_fn tr2 /\
    (is_flatten op = true \/ signature tr1 = signature tr2).
Proof.
  destruct op; eexists _, _, _, _, _, _;
    (split; [reflexivity |]); (split; [reflexivity |]);
    (split; [reflexivity |]);
    solve [right; reflexivity | left; reflexivity].
Qed.
